(** * webLLm: the chat component [App] as a state machine

    A shallow embedding of [src/App.jsx] and of its restyled copy, which has
    the same handlers.  The component's [useState] cells, the [abortRef] ref
    and the [handleSend] calls suspended at an [await] form one [State].
    Every handler is a function from the state of the render it closes over
    to the list of calls it makes, in source order ([Op]); [exec] applies
    them.  A handler runs on the latest render, as React re-renders after
    each event.  The inference engine is external: what it reports, yields
    or throws arrives as an [Event], in any order.

    The markup disables the input while [loading] is true and React drops
    updates after teardown; the transition function relies on neither, so
    the states it reaches include those of the component. *)

From Stdlib Require Import List String Ascii Bool Arith ZArith QArith Qround Lia Lqa.
Import ListNotations.

Close Scope Q_scope.
Open Scope string_scope.
Open Scope list_scope.

(** ** JavaScript strings *)

(** Characters stand for code units below 128; these are the white space and
    line terminator characters of that range, the ones [trim] strips. *)
Definition isWhiteSpace (c : ascii) : bool :=
  let n := nat_of_ascii c in
  (Nat.leb 9 n && Nat.leb n 13) || Nat.eqb n 32.

Fixpoint trimStart (s : string) : string :=
  match s with
  | EmptyString => EmptyString
  | String c r => if isWhiteSpace c then trimStart r else s
  end.

Fixpoint trimEnd (s : string) : string :=
  match s with
  | EmptyString => EmptyString
  | String c r =>
      match trimEnd r with
      | EmptyString => if isWhiteSpace c then EmptyString else String c EmptyString
      | r' => String c r'
      end
  end.

(** [s.trim()] *)
Definition trim (s : string) : string := trimEnd (trimStart s).

(** A string used as a condition: only the empty string is falsy. *)
Definition truthy (s : string) : bool := negb (s =? "").

(** [s || d] on strings. *)
Definition orElse (s d : string) : string := if truthy s then s else d.

(** ** Messages *)

(** The three role literals that occur in the source. *)
Inductive Role := system | user | assistant.

Definition Role_eqb (a b : Role) : bool :=
  match a, b with
  | system, system | user, user | assistant, assistant => true
  | _, _ => false
  end.

Record Message := mkMessage { role : Role; content : string }.

(** The initial value of the [messages] cell. *)
Definition systemPrompt : Message :=
  mkMessage system "You are a helpful AI assistant.".

(** ** The engine, as far as the component looks into it *)

(** [create] tells whether [engine.chat.completions.create] is there. *)
Record Completions := mkCompletions { create : bool }.
Record Chat := mkChat { completions : option Completions }.
Record Engine := mkEngine { chat : option Chat }.

(** [engine?.chat?.completions?.create] as a condition. *)
Definition hasCreate (engine : option Engine) : bool :=
  match engine with
  | Some e =>
      match chat e with
      | Some c =>
          match completions c with
          | Some k => create k
          | None => false
          end
      | None => false
      end
  | None => false
  end.

(** A progress report of [CreateMLCEngine]; [progress] may be undefined. *)
Record Report := mkReport { text : string; progress : option Q }.

(** A streamed chunk, with the optional chain the loop walks:
    [chunk?.choices?.[0]?.delta?.content]. *)
Record Delta := mkDelta { delta_content : option string }.
Record Choice := mkChoice { delta : option Delta }.
Record Chunk := mkChunk { choices : list Choice }.

(** A thrown error, by the two properties the handlers read. *)
Record JsError := mkError { name : string; message : string }.

(** The argument of [engine.chat.completions.create]; [signal] is the
    identity of the [AbortController] it belongs to. *)
Module Request.

Record t := mk {
  messages : list Message;
  stream : bool;
  temperature : Q;
  max_tokens : Z;
  signal : nat
}.

End Request.

(** ** State *)

(** The continuation of one [handleSend] call past its [await]: the
    [controller] it created and its local [assistantAccum]. *)
Record Generation := mkGeneration { controller : nat; assistantAccum : string }.

Record State := mkState {
  (* useState cells *)
  engine : option Engine;
  initStatus : string;
  modelLoaded : bool;
  modelProgress : Z;
  messages : list Message;
  input : string;
  loading : bool;
  (* abortRef.current *)
  abortRef : option nat;
  (* the effect's local flag, and whether CreateMLCEngine is still pending *)
  disposed : bool;
  pendingInit : bool;
  (* AbortControllers: how many were created, and which were aborted *)
  controllers : nat;
  aborted : list nat;
  (* handleSend calls suspended at an await *)
  running : list Generation
}.

(** Field updates. *)

Definition with_engine (x : option Engine) (s : State) : State :=
  mkState x (initStatus s) (modelLoaded s) (modelProgress s) (messages s)
    (input s) (loading s) (abortRef s) (disposed s) (pendingInit s)
    (controllers s) (aborted s) (running s).

Definition with_initStatus (x : string) (s : State) : State :=
  mkState (engine s) x (modelLoaded s) (modelProgress s) (messages s)
    (input s) (loading s) (abortRef s) (disposed s) (pendingInit s)
    (controllers s) (aborted s) (running s).

Definition with_modelLoaded (x : bool) (s : State) : State :=
  mkState (engine s) (initStatus s) x (modelProgress s) (messages s)
    (input s) (loading s) (abortRef s) (disposed s) (pendingInit s)
    (controllers s) (aborted s) (running s).

Definition with_modelProgress (x : Z) (s : State) : State :=
  mkState (engine s) (initStatus s) (modelLoaded s) x (messages s) (input s)
    (loading s) (abortRef s) (disposed s) (pendingInit s) (controllers s)
    (aborted s) (running s).

Definition with_messages (x : list Message) (s : State) : State :=
  mkState (engine s) (initStatus s) (modelLoaded s) (modelProgress s) x
    (input s) (loading s) (abortRef s) (disposed s) (pendingInit s)
    (controllers s) (aborted s) (running s).

Definition with_input (x : string) (s : State) : State :=
  mkState (engine s) (initStatus s) (modelLoaded s) (modelProgress s)
    (messages s) x (loading s) (abortRef s) (disposed s) (pendingInit s)
    (controllers s) (aborted s) (running s).

Definition with_loading (x : bool) (s : State) : State :=
  mkState (engine s) (initStatus s) (modelLoaded s) (modelProgress s)
    (messages s) (input s) x (abortRef s) (disposed s) (pendingInit s)
    (controllers s) (aborted s) (running s).

Definition with_abortRef (x : option nat) (s : State) : State :=
  mkState (engine s) (initStatus s) (modelLoaded s) (modelProgress s)
    (messages s) (input s) (loading s) x (disposed s) (pendingInit s)
    (controllers s) (aborted s) (running s).

Definition with_disposed (x : bool) (s : State) : State :=
  mkState (engine s) (initStatus s) (modelLoaded s) (modelProgress s)
    (messages s) (input s) (loading s) (abortRef s) x (pendingInit s)
    (controllers s) (aborted s) (running s).

Definition with_pendingInit (x : bool) (s : State) : State :=
  mkState (engine s) (initStatus s) (modelLoaded s) (modelProgress s)
    (messages s) (input s) (loading s) (abortRef s) (disposed s) x
    (controllers s) (aborted s) (running s).

Definition with_controllers (x : nat) (s : State) : State :=
  mkState (engine s) (initStatus s) (modelLoaded s) (modelProgress s)
    (messages s) (input s) (loading s) (abortRef s) (disposed s)
    (pendingInit s) x (aborted s) (running s).

Definition with_aborted (x : list nat) (s : State) : State :=
  mkState (engine s) (initStatus s) (modelLoaded s) (modelProgress s)
    (messages s) (input s) (loading s) (abortRef s) (disposed s)
    (pendingInit s) (controllers s) x (running s).

Definition with_running (x : list Generation) (s : State) : State :=
  mkState (engine s) (initStatus s) (modelLoaded s) (modelProgress s)
    (messages s) (input s) (loading s) (abortRef s) (disposed s)
    (pendingInit s) (controllers s) (aborted s) x.


(** The two copies of the component differ in two literals and in the
    progress percentage, which only the restyled copy keeps. *)
Inductive Variant := AppJsx | Restyled.

Definition initialStatus (v : Variant) : string :=
  match v with
  | AppJsx => "Initializing..."
  | Restyled => "Initializing model..."
  end.

Definition loadingText (v : Variant) : string :=
  match v with
  | AppJsx => "Loading..."
  | Restyled => "Loading model..."
  end.

Definition initial (v : Variant) : State :=
  {| engine := None;
     initStatus := initialStatus v;
     modelLoaded := false;
     modelProgress := 0;
     messages := [systemPrompt];
     input := "";
     loading := false;
     abortRef := None;
     disposed := false;
     pendingInit := true;
     controllers := 0;
     aborted := [];
     running := [] |}.

(** ** Calls a handler makes *)

Inductive Op :=
| setEngine (e : Engine)
| setInitStatus (v : string)
| setModelLoaded (b : bool)
| setModelProgress (z : Z)
| setInput (v : string)
| setLoading (b : bool)
| appendMessage (m : Message)       (* setMessages(prev => [...prev, m]) *)
| streamMessage (accum : string)    (* the setMessages of the streaming loop *)
| abort (c : nat)                   (* controller c: .abort() *)
| newAbortController                (* abortRef.current = new AbortController() *)
| clearAbortRef                     (* abortRef.current = null *)
| callCreate (r : Request.t).       (* engine.chat.completions.create(r) *)

(** The updater of the streaming loop: replace a trailing assistant entry,
    else append one (with a single space when nothing has accumulated). *)
Definition endsWithAssistant (prev : list Message) : bool :=
  match rev prev with
  | m :: _ => Role_eqb (role m) assistant
  | [] => false
  end.

Definition streamUpdate (accum : string) (prev : list Message) : list Message :=
  if endsWithAssistant prev
  then removelast prev ++ [mkMessage assistant accum]
  else prev ++ [mkMessage assistant (orElse accum " ")].

Definition exec1 (s : State) (o : Op) : State :=
  match o with
  | setEngine e => with_engine (Some e) s
  | setInitStatus v => with_initStatus v s
  | setModelLoaded b => with_modelLoaded b s
  | setModelProgress z => with_modelProgress z s
  | setInput v => with_input v s
  | setLoading b => with_loading b s
  | appendMessage m => with_messages (messages s ++ [m]) s
  | streamMessage a => with_messages (streamUpdate a (messages s)) s
  | abort c => with_aborted (c :: aborted s) s
  | newAbortController =>
      with_abortRef (Some (controllers s)) (with_controllers (S (controllers s)) s)
  | clearAbortRef => with_abortRef None s
  | callCreate r =>
      with_running (running s ++ [mkGeneration (Request.signal r) ""]) s
  end.

Definition exec (ops : list Op) (s : State) : State := fold_left exec1 ops s.

(** ** Initialization (the effect) *)

(** [report.progress === 1] *)
Definition isComplete (r : Report) : bool :=
  match progress r with
  | Some p => Qeq_bool p 1
  | None => false
  end.

(** [Math.round(p * 100)], in exact arithmetic. *)
Definition percent (p : Q) : Z := Qfloor (p * 100 + (1 # 2))%Q.

Definition initProgressCallback (v : Variant) (report : Report) (s : State)
  : list Op :=
  if disposed s then [] else
    [setInitStatus (orElse (text report) (loadingText v))]
    ++ match v, progress report with
       | Restyled, Some p => [setModelProgress (percent p)]
       | _, _ => []
       end
    ++ (if isComplete report then [setModelLoaded true] else []).

(** [e?.message || e]: an error without a message prints as its name. *)
Definition failureText (e : JsError) : string := orElse (message e) (name e).

(** ** The chat handlers *)

Definition unavailable : Message :=
  mkMessage assistant "Chat API not available in this build.".

(** The filter of [currentMessages]. *)
Definition keepForRequest (m : Message) : bool :=
  negb (Role_eqb (role m) assistant) || negb (trim (content m) =? "Typing...").

Definition isSome {A} (o : option A) : bool :=
  match o with Some _ => true | None => false end.

(** [abortRef.current?.abort()] *)
Definition abortCurrent (s : State) : list Op :=
  match abortRef s with
  | Some c => [abort c]
  | None => []
  end.

Definition handleSend (s : State) : list Op :=
  if negb (truthy (trim (input s))) || negb (isSome (engine s)) || loading s
  then []
  else if negb (hasCreate (engine s))
  then [appendMessage unavailable]
  else
    let userMsg := mkMessage user (input s) in
    let controller := controllers s in
    let currentMessages := filter keepForRequest (messages s) ++ [userMsg] in
    [setInput ""; setLoading true]
    ++ abortCurrent s
    ++ [newAbortController;
        appendMessage userMsg;
        callCreate (Request.mk currentMessages true (7 # 10) 512 controller)].

Definition handleCancel (s : State) : list Op :=
  match abortRef s with
  | Some c => [abort c; clearAbortRef; setLoading false]
  | None => []
  end.

(** [chunk?.choices?.[0]?.delta?.content || ''] *)
Definition piece (chunk : Chunk) : string :=
  match choices chunk with
  | c :: _ =>
      match delta c with
      | Some d =>
          match delta_content d with
          | Some t => t
          | None => ""
          end
      | None => ""
      end
  | [] => ""
  end.

(** [if (piece) assistantAccum += piece] *)
Definition accumulate (accum : string) (chunk : Chunk) : string :=
  if truthy (piece chunk) then (accum ++ piece chunk)%string else accum.

(** The [catch] and [finally] blocks of [handleSend]. *)
Definition errorMessage (err : JsError) : Message :=
  mkMessage assistant ("Error: " ++ orElse (message err) "Unknown error")%string.

Definition onThrow (err : JsError) : list Op :=
  (if name err =? "AbortError" then [] else [appendMessage (errorMessage err)])
  ++ [setLoading false].

(** Normal end of the loop: only the [finally] block. *)
Definition onEnd : list Op := [setLoading false].

(** ** Events and the transition function *)

Inductive Event :=
| Progress (report : Report)               (* initProgressCallback(report) *)
| EngineCreated (eng : Engine)             (* CreateMLCEngine resolved *)
| InitFailed (e : JsError)                 (* CreateMLCEngine rejected *)
| Teardown                                 (* the effect's cleanup *)
| Typed (value : string)                   (* onChange of the input *)
| Send                                     (* handleSend() *)
| Cancel                                   (* handleCancel() *)
| StreamChunk (c : nat) (chunk : Chunk)    (* the stream of c yields *)
| StreamEnd (c : nat)                      (* the stream of c is done *)
| StreamThrow (c : nat) (err : JsError).   (* create or the stream of c throws *)

Definition owns (c : nat) (g : Generation) : bool := Nat.eqb (controller g) c.

Definition findGeneration (c : nat) (rn : list Generation) : option Generation :=
  find (owns c) rn.

Definition setAccum (c : nat) (accum : string) (rn : list Generation)
  : list Generation :=
  map (fun g => if owns c g then mkGeneration c accum else g) rn.

Definition dropGeneration (c : nat) (rn : list Generation) : list Generation :=
  filter (fun g => negb (owns c g)) rn.

Definition step (v : Variant) (s : State) (ev : Event) : State :=
  match ev with
  | Progress report => exec (initProgressCallback v report s) s
  | EngineCreated eng =>
      if pendingInit s then
        if disposed s then with_pendingInit false s
        else exec [setEngine eng] (with_pendingInit false s)
      else s
  | InitFailed e =>
      if pendingInit s then
        exec [setInitStatus ("Initialization failed: " ++ failureText e)%string]
             (with_pendingInit false s)
      else s
  | Teardown => exec (abortCurrent s) (with_disposed true s)
  | Typed value => exec [setInput value] s
  | Send => exec (handleSend s) s
  | Cancel => exec (handleCancel s) s
  | StreamChunk c chunk =>
      match findGeneration c (running s) with
      | Some g =>
          let accum := accumulate (assistantAccum g) chunk in
          exec [streamMessage accum] (with_running (setAccum c accum (running s)) s)
      | None => s
      end
  | StreamEnd c =>
      match findGeneration c (running s) with
      | Some _ => exec onEnd (with_running (dropGeneration c (running s)) s)
      | None => s
      end
  | StreamThrow c err =>
      match findGeneration c (running s) with
      | Some _ => exec (onThrow err) (with_running (dropGeneration c (running s)) s)
      | None => s
      end
  end.

Definition run (v : Variant) (evs : list Event) : State :=
  fold_left (step v) evs (initial v).

Inductive reachable (v : Variant) : State -> Prop :=
| reach_initial : reachable v (initial v)
| reach_step s ev : reachable v s -> reachable v (step v s ev).

(** The chunks of one generation, applied one after the other. *)
Definition streamChunks (v : Variant) (c : nat) (chunks : list Chunk) (s : State)
  : State :=
  fold_left (fun s chunk => step v s (StreamChunk c chunk)) chunks s.

(** The progress reports of one initialization. *)
Definition reports (v : Variant) (rs : list Report) (s : State) : State :=
  fold_left (fun s r => step v s (Progress r)) rs s.

(** What is true of the transcript: the system prompt first, and no other
    system message. *)
Definition leadingSystem (ms : list Message) : Prop :=
  exists rest, ms = systemPrompt :: rest /\ Forall (fun m => role m <> system) rest.

(** The requests in a list of calls. *)
Definition requestsOf (ops : list Op) : list Request.t :=
  flat_map (fun o => match o with callCreate r => [r] | _ => [] end) ops.

(** The number of times a flag goes from false to true along a trace. *)
Fixpoint rises (prev : bool) (trace : list bool) : nat :=
  match trace with
  | [] => 0
  | b :: rest => (if negb prev && b then 1 else 0) + rises b rest
  end.

(** The number of times it goes from true to false. *)
Fixpoint falls (prev : bool) (trace : list bool) : nat :=
  match trace with
  | [] => 0
  | b :: rest => (if prev && negb b then 1 else 0) + falls b rest
  end.

(** The ready flag after each report. *)
Fixpoint readyTrace (v : Variant) (rs : list Report) (s : State) : list bool :=
  match rs with
  | [] => []
  | r :: rest =>
      let s' := step v s (Progress r) in
      modelLoaded s' :: readyTrace v rest s'
  end.

(** A capable engine, one without the chat operation, and simple chunks. *)
Definition capable : Engine :=
  mkEngine (Some (mkChat (Some (mkCompletions true)))).

Definition chatless : Engine := mkEngine (Some (mkChat None)).

Definition textChunk (t : string) : Chunk :=
  mkChunk [mkChoice (Some (mkDelta (Some t)))].

(** ** Vocabulary of the statements *)

(** The condition under which [handleSend] gets past its first line when the
    engine is there and nothing is loading. *)
Definition nonBlank (value : string) : bool := truthy (trim value).

(** Strings joined in the order of the list. *)
Definition concatAll (l : list string) : string := fold_right String.append "" l.

(** The placeholder entry the request leaves out. *)
Definition isTypingSentinel (m : Message) : bool :=
  Role_eqb (role m) assistant && (trim (content m) =? "Typing...").

(** A send that aborts the controller in [abortRef] and starts a
    generation of its own, with an empty accumulator. *)
Definition startsFresh (v : Variant) (s : State) : Prop :=
  let s' := step v s Send in
  (forall c, abortRef s = Some c -> In c (aborted s')) /\
  abortRef s' = Some (controllers s) /\
  running s' = running s ++ [mkGeneration (controllers s) ""] /\
  loading s' = true.

(** The transcript after a send from [s] and the given chunks of its stream. *)
Definition afterStream (v : Variant) (s : State) (chunks : list Chunk)
  : list Message :=
  messages (streamChunks v (controllers s) chunks (step v s Send)).

(** One trailing assistant entry that holds all the text streamed. *)
Definition oneBubble (v : Variant) (s : State) (chunks : list Chunk) : Prop :=
  afterStream v s chunks =
  messages s ++ [mkMessage user (input s);
                 mkMessage assistant (concatAll (map piece chunks))].

(** A send after which the transcript has gained the user message. *)
Definition gainsUserMessage (v : Variant) (s : State) : Prop :=
  messages (step v s Send) = messages s ++ [mkMessage user (input s)].

(** What the chunks of a stream leave after the user message. *)
Definition bubble (chunks : list Chunk) : list Message :=
  match chunks with
  | [] => []
  | [chunk] => [mkMessage assistant (orElse (piece chunk) " ")]
  | _ => [mkMessage assistant (concatAll (map piece chunks))]
  end.

(** States used as examples: the engine is there and "Hello" is typed;
    the same after the send; the same with more text in the input. *)
Definition helloTyped : State := run AppJsx [EngineCreated capable; Typed "Hello"].

Definition generating : State :=
  run AppJsx [EngineCreated capable; Typed "Hello"; Send].

Definition generatingTyped : State :=
  run AppJsx [EngineCreated capable; Typed "Hello"; Send; Typed "More"].

Definition helloChatless : State :=
  run Restyled [EngineCreated chatless; Typed "Hello"].

Definition answered : State :=
  run AppJsx [EngineCreated capable; Typed "Hello"; Send;
              StreamChunk 0 (textChunk "Hi"); StreamEnd 0].

Definition answeredTyped : State :=
  run AppJsx [EngineCreated capable; Typed "Hello"; Send;
              StreamChunk 0 (textChunk "Hi"); StreamEnd 0; Typed "More"].

(** The model has answered with the very text of the placeholder. *)
Definition typingEchoed : State :=
  run AppJsx [EngineCreated capable; Typed "Hello"; Send;
              StreamChunk 0 (textChunk " Typing..."); StreamEnd 0; Typed "Next"].

(** The reports of the scenario: progress 0, one half, 1. *)
Definition threeReports : list Report :=
  [mkReport "Start to fetch params" (Some 0%Q);
   mkReport "Loading model from cache" (Some (1 # 2)%Q);
   mkReport "Finish loading" (Some 1%Q)].

(** What holds in every state the component can reach. *)
Record Inv (s : State) : Prop := mkInv {
  inv_transcript : leadingSystem (messages s);
  inv_pending : pendingInit s = true -> engine s = None;
  inv_loading : loading s = true -> hasCreate (engine s) = true;
  inv_capable : running s <> [] -> hasCreate (engine s) = true;
  inv_busy : loading s = true -> running s <> [];
  inv_fresh : Forall (fun g => controller g < controllers s) (running s)
}.

(** More example states: only spaces typed; an engine without the chat
    operation in [App.jsx]. *)
Definition spacesTyped : State := run AppJsx [EngineCreated capable; Typed "   "].

(** ** The key handler and the markup *)


(** A string of white space only (or empty). *)
Fixpoint allWhite (s : string) : bool :=
  match s with
  | EmptyString => true
  | String c r => isWhiteSpace c && allWhite r
  end.





(** What the markup of each copy takes for readiness: the engine in
    [App.jsx], the ready flag in the restyled copy. *)
Definition controlsReady (v : Variant) (s : State) : bool :=
  match v with
  | AppJsx => isSome (engine s)
  | Restyled => modelLoaded s
  end.

(** The [disabled] attribute of the input. *)
Definition inputDisabled (v : Variant) (s : State) : bool :=
  negb (controlsReady v s) || loading s.

(** The one button shown: Send, with its [disabled] attribute, or Stop. *)
Inductive Button := SendButton (disabled : bool) | StopButton.

Definition button (v : Variant) (s : State) : Button :=
  if negb (loading s)
  then SendButton (negb (controlsReady v s) || negb (truthy (trim (input s))))
  else StopButton.

(** The status shown while the model is not loaded: the text and, in the
    restyled copy, the percentage when it is strictly between 0 and 100. *)
Record Overlay := mkOverlay { overlayText : string; overlayPercent : option Z }.

Definition overlay (v : Variant) (s : State) : option Overlay :=
  if negb (modelLoaded s) then
    Some (mkOverlay (initStatus s)
            match v with
            | AppJsx => None
            | Restyled =>
                if (0 <? modelProgress s)%Z && (modelProgress s <? 100)%Z
                then Some (modelProgress s)
                else None
            end)
  else None.


(** Any events, one after the other. *)
Definition steps (v : Variant) (evs : list Event) (s : State) : State :=
  fold_left (step v) evs s.

(** The user entries of a transcript. *)
Definition userEntries (ms : list Message) : list Message :=
  filter (fun m => Role_eqb (role m) user) ms.

(** More of what holds in every reachable state. *)
Record Inv2 (s : State) : Prop := mkInv2 {
  inv_ref : forall c, abortRef s = Some c -> c < controllers s;
  inv_aborted : Forall (fun c => c < controllers s) (aborted s);
  inv_distinct : NoDup (map controller (running s));
  inv_stop : loading s = true ->
             exists c, abortRef s = Some c /\ findGeneration c (running s) <> None;
  inv_untouched : engine s = None -> messages s = [systemPrompt];
  inv_status : initStatus s <> ""
}.

(** * Basic facts *)

Lemma run_reachable v evs : reachable v (run v evs).
Proof.
  unfold run. generalize (reach_initial v). generalize (initial v).
  induction evs as [|ev evs IH]; intros s Hs; simpl; [exact Hs|].
  apply IH. now constructor.
Qed.

Lemma Role_eqb_eq a b : Role_eqb a b = true <-> a = b.
Proof. destruct a, b; simpl; split; congruence. Qed.

Lemma endsWithAssistant_snoc pre m :
  endsWithAssistant (pre ++ [m]) = Role_eqb (role m) assistant.
Proof. unfold endsWithAssistant. now rewrite rev_unit. Qed.

Lemma streamUpdate_snoc accum pre m :
  streamUpdate accum (pre ++ [m]) =
  if Role_eqb (role m) assistant
  then pre ++ [mkMessage assistant accum]
  else pre ++ [m; mkMessage assistant (orElse accum " ")].
Proof.
  unfold streamUpdate. rewrite endsWithAssistant_snoc.
  destruct (Role_eqb (role m) assistant).
  - now rewrite removelast_last.
  - now rewrite <- app_assoc.
Qed.

Lemma leadingSystem_snoc ms m :
  leadingSystem ms -> role m <> system -> leadingSystem (ms ++ [m]).
Proof.
  intros (rest & -> & Hrest) Hm. exists (rest ++ [m]). split; [reflexivity|].
  apply Forall_app. split; [exact Hrest|]. now constructor.
Qed.

Lemma leadingSystem_streamUpdate accum ms :
  leadingSystem ms -> leadingSystem (streamUpdate accum ms).
Proof.
  intros (rest & -> & Hrest).
  destruct (@exists_last _ (systemPrompt :: rest)) as (pre & m & E); [discriminate|].
  rewrite E, streamUpdate_snoc.
  assert (Hpre : leadingSystem (pre ++ [m])).
  { rewrite <- E. now exists rest. }
  destruct (Role_eqb (role m) assistant) eqn:Hm.
  - apply Role_eqb_eq in Hm.
    destruct pre as [|p pre].
    + simpl in E. injection E as E _. rewrite <- E in Hm. discriminate.
    + simpl in E. injection E as Ep Erest. subst p.
      exists (pre ++ [mkMessage assistant accum]). split; [reflexivity|].
      rewrite Erest in Hrest. apply Forall_app in Hrest as [Hpre' _].
      apply Forall_app. split; [exact Hpre'|]. constructor; [discriminate|constructor].
  - change (pre ++ [m; mkMessage assistant (orElse accum " ")])
      with (pre ++ [m] ++ [mkMessage assistant (orElse accum " ")]).
    rewrite app_assoc. apply leadingSystem_snoc; [exact Hpre|discriminate].
Qed.

Lemma findGeneration_owner c rn g :
  findGeneration c rn = Some g -> In g rn /\ controller g = c.
Proof.
  intros H. apply find_some in H as [Hin Ho]. split; [exact Hin|].
  now apply Nat.eqb_eq.
Qed.

Lemma setAccum_nonempty c accum rn : setAccum c accum rn <> [] <-> rn <> [].
Proof. destruct rn; simpl; split; congruence. Qed.

Lemma setAccum_fresh c accum rn n :
  c < n ->
  Forall (fun g => controller g < n) rn ->
  Forall (fun g => controller g < n) (setAccum c accum rn).
Proof.
  intros Hc H. unfold setAccum. apply Forall_map.
  eapply Forall_impl; [|exact H]. intros g Hg. now destruct (owns c g).
Qed.

Lemma dropGeneration_fresh c rn n :
  Forall (fun g => controller g < n) rn ->
  Forall (fun g => controller g < n) (dropGeneration c rn).
Proof.
  intros H. apply Forall_forall. intros g Hg.
  apply filter_In in Hg as [Hg _]. revert g Hg. now apply Forall_forall.
Qed.

Lemma dropGeneration_nonempty c rn : dropGeneration c rn <> [] -> rn <> [].
Proof. destruct rn; simpl; congruence. Qed.

Lemma Inv_initial v : Inv (initial v).
Proof.
  constructor; simpl; try congruence; try discriminate.
  - exists []. now split.
  - constructor.
Qed.

Lemma Inv_step v s ev : Inv s -> Inv (step v s ev).
Proof.
  intros HI. pose proof HI as [Ht Hp Hl Hc Hb Hf].
  destruct ev as [report|eng|e| |value| | |c chunk|c|c err]; simpl.
  - (* Progress *)
    unfold initProgressCallback.
    destruct (disposed s); [exact HI|].
    destruct v, (progress report), (isComplete report);
      constructor; cbn; assumption.
  - (* EngineCreated *)
    destruct (pendingInit s) eqn:P; [|now destruct (disposed s)].
    specialize (Hp eq_refl). rewrite Hp in Hl, Hc. simpl in Hl, Hc.
    destruct (disposed s); constructor; cbn; try assumption; try discriminate;
      intros H; try (apply Hl in H; discriminate); try (apply Hc in H; discriminate).
  - (* InitFailed *)
    destruct (pendingInit s); [|exact HI].
    constructor; cbn; try assumption; discriminate.
  - (* Teardown *)
    unfold abortCurrent. destruct (abortRef s); constructor; cbn; assumption.
  - (* Typed *)
    constructor; cbn; assumption.
  - (* Send *)
    unfold handleSend.
    destruct (negb (truthy (trim (input s))) || negb (isSome (engine s)) || loading s);
      [exact HI|].
    destruct (hasCreate (engine s)) eqn:H; simpl.
    + unfold abortCurrent.
      destruct (abortRef s); constructor; cbn; try assumption; try (intros _; exact H);
        try (apply leadingSystem_snoc; [assumption|discriminate]);
        try (intros _; now destruct (running s));
        (apply Forall_app; split;
         [eapply Forall_impl; [|exact Hf]; cbn; intros; lia
         |constructor; [cbn; lia|constructor]]).
    + constructor; cbn; try assumption; try apply HI.
      apply leadingSystem_snoc; [assumption|discriminate].
  - (* Cancel *)
    unfold handleCancel.
    destruct (abortRef s); constructor; cbn; try assumption; discriminate.
  - (* StreamChunk *)
    destruct (findGeneration c (running s)) as [g|] eqn:F; [|exact HI].
    apply findGeneration_owner in F as [Hin Ho].
    assert (c < controllers s).
    { rewrite <- Ho. exact (proj1 (Forall_forall _ _) Hf g Hin). }
    constructor; cbn; try assumption.
    + now apply leadingSystem_streamUpdate.
    + intros H1. apply Hc. now apply setAccum_nonempty in H1.
    + intros H1. apply setAccum_nonempty. now apply Hb.
    + now apply setAccum_fresh.
  - (* StreamEnd *)
    destruct (findGeneration c (running s)); [|exact HI].
    constructor; cbn; try assumption; try discriminate.
    + intros H1. apply Hc. now apply dropGeneration_nonempty in H1.
    + now apply dropGeneration_fresh.
  - (* StreamThrow *)
    destruct (findGeneration c (running s)); [|exact HI].
    unfold onThrow.
    destruct (name err =? "AbortError")%string; constructor; cbn;
      try assumption; try discriminate;
      try (intros H1; apply Hc; now apply dropGeneration_nonempty in H1);
      try (now apply dropGeneration_fresh).
    apply leadingSystem_snoc; [assumption|discriminate].
Qed.

Lemma reachable_Inv v s : reachable v s -> Inv s.
Proof.
  induction 1 as [|s ev _ IH]; [apply Inv_initial|now apply Inv_step].
Qed.

(** ** Strings *)

Lemma append_assoc (a b c : string) : ((a ++ b) ++ c = a ++ (b ++ c))%string.
Proof. induction a as [|x a IH]; simpl; [reflexivity|now rewrite IH]. Qed.

Lemma append_empty_r (a : string) : (a ++ "")%string = a.
Proof. induction a as [|x a IH]; simpl; [reflexivity|now rewrite IH]. Qed.

Lemma truthy_false s : truthy s = false -> s = "".
Proof. unfold truthy. intros H. apply negb_false_iff in H. now apply String.eqb_eq. Qed.

Lemma accumulate_append accum chunk :
  accumulate accum chunk = (accum ++ piece chunk)%string.
Proof.
  unfold accumulate. destruct (truthy (piece chunk)) eqn:T; [reflexivity|].
  apply truthy_false in T. rewrite T. now rewrite append_empty_r.
Qed.

Lemma accumulate_all chunks accum :
  fold_left accumulate chunks accum =
  (accum ++ concatAll (map piece chunks))%string.
Proof.
  revert accum. induction chunks as [|chunk chunks IH]; intros accum; simpl.
  - now rewrite append_empty_r.
  - now rewrite IH, accumulate_append, append_assoc.
Qed.

(** ** The first line of [handleSend] *)

Lemma handleSend_rejected s : loading s = true -> handleSend s = [].
Proof.
  intros H. unfold handleSend. rewrite H.
  now rewrite orb_true_r.
Qed.

Lemma handleSend_unavailable s :
  nonBlank (input s) = true -> isSome (engine s) = true -> loading s = false ->
  hasCreate (engine s) = false ->
  handleSend s = [appendMessage unavailable].
Proof.
  unfold nonBlank, handleSend. intros -> -> -> ->. reflexivity.
Qed.

Lemma hasCreate_isSome e : hasCreate e = true -> isSome e = true.
Proof. now destruct e. Qed.

Lemma handleSend_accepted s :
  nonBlank (input s) = true -> hasCreate (engine s) = true -> loading s = false ->
  handleSend s =
  [setInput ""; setLoading true] ++ abortCurrent s ++
  [newAbortController;
   appendMessage (mkMessage user (input s));
   callCreate (Request.mk
                 (filter keepForRequest (messages s) ++ [mkMessage user (input s)])
                 true (7 # 10) 512 (controllers s))].
Proof.
  unfold nonBlank, handleSend. intros -> H ->.
  rewrite (hasCreate_isSome _ H), H. reflexivity.
Qed.

Lemma reachable_chatless_idle v s :
  reachable v s -> hasCreate (engine s) = false -> loading s = false.
Proof.
  intros R H. destruct (loading s) eqn:L; [|reflexivity].
  apply (inv_loading _ (reachable_Inv _ _ R)) in L. congruence.
Qed.

(** * Sending *)

(** C1, as stated, fails: with a generation in progress and text in the
    input, [handleSend] returns at its first line ([|| loading]); the
    controller of the running generation is not aborted and no second
    generation starts. *)
Lemma send_while_generating_rejected :
  loading generatingTyped = true /\
  nonBlank (input generatingTyped) = true /\
  running generatingTyped = [mkGeneration 0 ""] /\
  step AppJsx generatingTyped Send = generatingTyped /\
  ~ startsFresh AppJsx generatingTyped.
Proof.
  repeat split; try reflexivity.
  intros (Habort & _). specialize (Habort 0 eq_refl).
  vm_compute in Habort. exact Habort.
Qed.

(** C1, amended: a send with non-blank input on an engine that has the chat
    operation is rejected while [loading] is true (no call is made and the
    state is unchanged); when [loading] is false it aborts the controller
    still held in [abortRef], installs a new one and starts a generation
    with an empty accumulator. *)
Theorem send_rejected_while_loading v s :
  nonBlank (input s) = true ->
  hasCreate (engine s) = true ->
  if loading s
  then handleSend s = [] /\ step v s Send = s
  else startsFresh v s.
Proof.
  intros Hin Hcap. destruct (loading s) eqn:L.
  - rewrite (handleSend_rejected s L). split; [reflexivity|].
    simpl. now rewrite (handleSend_rejected s L).
  - unfold startsFresh. simpl.
    rewrite (handleSend_accepted s Hin Hcap L). unfold abortCurrent.
    destruct (abortRef s) as [c|]; cbn; repeat split; try reflexivity.
    + intros c' E. injection E as <-. now left.
    + intros c' E. discriminate.
Qed.

Lemma send_rejected_while_loading_witness :
  (handleSend generatingTyped = [] /\
   step AppJsx generatingTyped Send = generatingTyped) /\
  startsFresh AppJsx answeredTyped.
Proof.
  split.
  - exact (send_rejected_while_loading AppJsx generatingTyped eq_refl eq_refl).
  - exact (send_rejected_while_loading AppJsx answeredTyped eq_refl eq_refl).
Defined.

(** C7, as stated, fails: an engine that is there but has no
    [chat.completions.create] takes the send of non-blank text, with nothing
    loading, to the capability check, which appends the assistant entry and
    returns; the transcript gains no user message and no request is made. *)
Lemma send_without_chat_gains_no_user_message :
  nonBlank (input helloChatless) = true /\
  isSome (engine helloChatless) = true /\
  loading helloChatless = false /\
  messages (step Restyled helloChatless Send) = [systemPrompt; unavailable] /\
  requestsOf (handleSend helloChatless) = [] /\
  ~ gainsUserMessage Restyled helloChatless.
Proof.
  repeat split; try reflexivity.
  intros H. vm_compute in H. discriminate.
Qed.

(** C7, amended: a send of non-blank text, with nothing loading and an
    engine that has [chat.completions.create], issues its request as its
    last call, and the calls before it have added exactly the user message,
    holding the input, to the transcript. *)
Theorem user_message_before_request v s :
  nonBlank (input s) = true ->
  hasCreate (engine s) = true ->
  loading s = false ->
  exists before r,
    handleSend s = before ++ [callCreate r] /\
    requestsOf before = [] /\
    messages (exec before s) = messages s ++ [mkMessage user (input s)] /\
    gainsUserMessage v s.
Proof.
  intros Hin Hcap L. unfold gainsUserMessage. simpl.
  rewrite (handleSend_accepted s Hin Hcap L).
  exists ([setInput ""; setLoading true] ++ abortCurrent s ++
          [newAbortController; appendMessage (mkMessage user (input s))]).
  eexists. unfold abortCurrent.
  destruct (abortRef s); cbn; repeat split; reflexivity.
Qed.

Lemma user_message_before_request_witness :
  exists before r,
    handleSend helloTyped = before ++ [callCreate r] /\
    requestsOf before = [] /\
    messages (exec before helloTyped) =
      [systemPrompt; mkMessage user "Hello"] /\
    gainsUserMessage AppJsx helloTyped.
Proof.
  exact (user_message_before_request AppJsx helloTyped eq_refl eq_refl eq_refl).
Defined.

(** C6: the request of an accepted send carries the transcript of that
    moment without the entries that are typing placeholders, in order, and
    then the new user message. *)
Theorem request_seeded_with_history s :
  nonBlank (input s) = true ->
  hasCreate (engine s) = true ->
  loading s = false ->
  map Request.messages (requestsOf (handleSend s)) =
  [filter (fun m => negb (isTypingSentinel m)) (messages s)
   ++ [mkMessage user (input s)]].
Proof.
  intros Hin Hcap L. rewrite (handleSend_accepted s Hin Hcap L).
  unfold abortCurrent. replace (filter keepForRequest (messages s))
    with (filter (fun m => negb (isTypingSentinel m)) (messages s)).
  - now destruct (abortRef s).
  - apply filter_ext. intros m. unfold isTypingSentinel, keepForRequest.
    now rewrite negb_andb.
Qed.

Lemma request_seeded_with_history_witness :
  messages typingEchoed =
    [systemPrompt; mkMessage user "Hello"; mkMessage assistant " Typing..."] /\
  map Request.messages (requestsOf (handleSend typingEchoed)) =
    [[systemPrompt; mkMessage user "Hello"; mkMessage user "Next"]].
Proof.
  split; [reflexivity|].
  exact (request_seeded_with_history typingEchoed eq_refl eq_refl eq_refl).
Defined.

(** * Streaming *)

Lemma findGeneration_setAccum c accum rn g :
  findGeneration c rn = Some g ->
  findGeneration c (setAccum c accum rn) = Some (mkGeneration c accum).
Proof.
  unfold findGeneration, setAccum.
  induction rn as [|h rn IH]; simpl; [discriminate|].
  destruct (owns c h) eqn:O; simpl.
  - intros _. unfold owns at 1. simpl. now rewrite Nat.eqb_refl.
  - rewrite O. exact IH.
Qed.

Lemma findGeneration_fresh c accum rn :
  Forall (fun g => controller g < c) rn ->
  findGeneration c (rn ++ [mkGeneration c accum]) = Some (mkGeneration c accum).
Proof.
  unfold findGeneration. induction 1 as [|h rn Hh _ IH]; simpl.
  - unfold owns. simpl. now rewrite Nat.eqb_refl.
  - unfold owns at 1. destruct (Nat.eqb_spec (controller h) c); [lia|exact IH].
Qed.

Lemma stream_chunk_found v s c chunk g :
  findGeneration c (running s) = Some g ->
  messages (step v s (StreamChunk c chunk)) =
    streamUpdate (accumulate (assistantAccum g) chunk) (messages s) /\
  findGeneration c (running (step v s (StreamChunk c chunk))) =
    Some (mkGeneration c (accumulate (assistantAccum g) chunk)).
Proof.
  intros F. simpl. rewrite F. cbn. split; [reflexivity|].
  now apply findGeneration_setAccum with g.
Qed.

Lemma streamChunks_cons v c chunk chunks s :
  streamChunks v c (chunk :: chunks) s =
  streamChunks v c chunks (step v s (StreamChunk c chunk)).
Proof. reflexivity. Qed.

Lemma streamChunks_replace v c chunks :
  forall s accum pre x,
    findGeneration c (running s) = Some (mkGeneration c accum) ->
    messages s = pre ++ [mkMessage assistant x] ->
    messages (streamChunks v c chunks s) =
    pre ++ [mkMessage assistant
              match chunks with
              | [] => x
              | _ => fold_left accumulate chunks accum
              end].
Proof.
  induction chunks as [|chunk chunks IH]; intros s accum pre x F M.
  - exact M.
  - rewrite streamChunks_cons.
    destruct (stream_chunk_found v s c chunk _ F) as [M' F'].
    cbn [assistantAccum] in M', F'.
    rewrite M, streamUpdate_snoc in M'. cbn [role Role_eqb] in M'.
    rewrite (IH _ _ _ _ F' M'). now destruct chunks.
Qed.

(** C2, as stated, fails at a stream that yields nothing, which leaves no
    assistant entry, and at a stream whose only chunk has no text, which
    leaves an entry holding one space. *)
Lemma stream_without_text_no_concatenation :
  ~ oneBubble AppJsx helloTyped [] /\
  ~ oneBubble AppJsx helloTyped [textChunk ""] /\
  afterStream AppJsx helloTyped [] = [systemPrompt; mkMessage user "Hello"] /\
  afterStream AppJsx helloTyped [textChunk ""] =
    [systemPrompt; mkMessage user "Hello"; mkMessage assistant " "].
Proof.
  repeat split; try reflexivity; intros H; vm_compute in H; discriminate.
Qed.

(** C2, amended: after an accepted send, the chunks of its stream leave
    after the user message nothing when there are none, one assistant entry
    holding the text of the chunk, or one space if it has none, when there
    is one, and otherwise one assistant entry holding the texts
    of all chunks joined in arrival order. *)
Theorem deltas_concatenate_in_one_entry v s chunks :
  reachable v s ->
  nonBlank (input s) = true ->
  hasCreate (engine s) = true ->
  loading s = false ->
  afterStream v s chunks =
  messages s ++ [mkMessage user (input s)] ++ bubble chunks.
Proof.
  intros R Hin Hcap L. unfold afterStream.
  set (s1 := step v s Send).
  assert (M1 : messages s1 = messages s ++ [mkMessage user (input s)]).
  { subst s1. simpl. rewrite (handleSend_accepted s Hin Hcap L).
    unfold abortCurrent. now destruct (abortRef s). }
  assert (F1 : findGeneration (controllers s) (running s1)
               = Some (mkGeneration (controllers s) "")).
  { assert (E : running s1 = running s ++ [mkGeneration (controllers s) ""]).
    { subst s1. simpl. rewrite (handleSend_accepted s Hin Hcap L).
      unfold abortCurrent. now destruct (abortRef s). }
    rewrite E. apply findGeneration_fresh.
    exact (inv_fresh _ (reachable_Inv _ _ R)). }
  destruct chunks as [|chunk chunks].
  - simpl. rewrite M1. reflexivity.
  - rewrite streamChunks_cons.
    destruct (stream_chunk_found v s1 _ chunk _ F1) as [M2 F2].
    cbn [assistantAccum] in M2, F2.
    rewrite M1, streamUpdate_snoc in M2. cbn [role Role_eqb] in M2.
    rewrite accumulate_append in M2, F2. cbn [String.append] in M2, F2.
    change (messages s ++ [mkMessage user (input s);
                           mkMessage assistant (orElse (piece chunk) " ")])
      with (messages s ++ [mkMessage user (input s)]
                       ++ [mkMessage assistant (orElse (piece chunk) " ")]) in M2.
    rewrite app_assoc in M2.
    rewrite (streamChunks_replace v _ chunks _ _ _ _ F2 M2).
    rewrite <- app_assoc. destruct chunks as [|chunk' chunks]; [reflexivity|].
    now rewrite accumulate_all.
Qed.

Lemma deltas_concatenate_in_one_entry_witness :
  afterStream AppJsx helloTyped
    [textChunk "Hi"; textChunk " there"; textChunk "!"] =
  [systemPrompt; mkMessage user "Hello"; mkMessage assistant "Hi there!"].
Proof.
  exact (deltas_concatenate_in_one_entry AppJsx helloTyped
           [textChunk "Hi"; textChunk " there"; textChunk "!"]
           (run_reachable AppJsx [EngineCreated capable; Typed "Hello"])
           eq_refl eq_refl eq_refl).
Defined.

(** * Failure and cancellation *)

Lemma findGeneration_nonempty c rn : findGeneration c rn <> None -> rn <> [].
Proof. destruct rn; simpl; congruence. Qed.

(** C3: when the stream of a running generation throws, [loading] becomes
    false; an error named AbortError adds nothing to the transcript, any
    other error adds one assistant entry, "Error: " followed by the error's
    message (or by "Unknown error" when it has none); the engine is kept, and
    a later send of non-blank text issues a request. *)
Theorem stream_failure_handling v s c err value :
  reachable v s ->
  findGeneration c (running s) <> None ->
  nonBlank value = true ->
  let s' := step v s (StreamThrow c err) in
  loading s' = false /\
  messages s' =
    (if name err =? "AbortError" then messages s
     else messages s ++
          [mkMessage assistant
             ("Error: " ++ orElse (message err) "Unknown error")%string]) /\
  engine s' = engine s /\
  requestsOf (handleSend (step v s' (Typed value))) <> [].
Proof.
  intros R F Hin s'.
  assert (Hcap : hasCreate (engine s) = true).
  { apply (inv_capable _ (reachable_Inv _ _ R)).
    now apply findGeneration_nonempty with c. }
  assert (E : loading s' = false /\ engine s' = engine s /\
              messages s' =
              (if name err =? "AbortError" then messages s
               else messages s ++ [errorMessage err])).
  { subst s'. simpl. destruct (findGeneration c (running s)); [|congruence].
    unfold onThrow. now destruct (name err =? "AbortError")%string. }
  destruct E as (L & Ee & M). repeat split; try assumption.
  set (t := step v s' (Typed value)).
  assert (Ht : nonBlank (input t) = true /\ hasCreate (engine t) = true /\
               loading t = false).
  { change (input t) with value. change (engine t) with (engine s').
    change (loading t) with (loading s'). rewrite Ee. now repeat split. }
  destruct Ht as (Ht1 & Ht2 & Ht3).
  rewrite (handleSend_accepted t Ht1 Ht2 Ht3).
  unfold abortCurrent. destruct (abortRef t); discriminate.
Qed.

Lemma stream_failure_handling_witness :
  let s' := step AppJsx generating (StreamThrow 0 (mkError "Error" "out of memory")) in
  loading s' = false /\
  messages s' =
    [systemPrompt; mkMessage user "Hello";
     mkMessage assistant "Error: out of memory"] /\
  engine s' = Some capable /\
  requestsOf (handleSend (step AppJsx s' (Typed "Again"))) <> [].
Proof.
  refine (stream_failure_handling AppJsx generating 0
            (mkError "Error" "out of memory") "Again"
            (run_reachable AppJsx [EngineCreated capable; Typed "Hello"; Send])
            _ eq_refl).
  discriminate.
Defined.

(** C8: with no generation running, or with [loading] false, [handleCancel]
    leaves the transcript, the loading flag, the status text, the input, the
    engine and the ready flag as they are; it is a total function, so it
    raises nothing. *)
Theorem cancel_without_generation v s :
  reachable v s ->
  running s = [] \/ loading s = false ->
  let s' := step v s Cancel in
  messages s' = messages s /\
  loading s' = loading s /\
  initStatus s' = initStatus s /\
  input s' = input s /\
  engine s' = engine s /\
  modelLoaded s' = modelLoaded s /\
  running s' = running s.
Proof.
  intros R H s'.
  assert (L : loading s = false).
  { destruct H as [H|H]; [|exact H].
    destruct (loading s) eqn:L; [|reflexivity].
    now apply (inv_busy _ (reachable_Inv _ _ R)) in L. }
  subst s'. simpl. unfold handleCancel.
  destruct (abortRef s); cbn; rewrite ?L; now repeat split.
Qed.

Lemma cancel_without_generation_witness :
  (running answered = [] /\ abortRef answered = Some 0) /\
  messages (step AppJsx answered Cancel) =
    [systemPrompt; mkMessage user "Hello"; mkMessage assistant "Hi"] /\
  loading (step AppJsx answered Cancel) = false /\
  initStatus (step AppJsx answered Cancel) = "Initializing...".
Proof.
  split; [split; reflexivity|].
  destruct (cancel_without_generation AppJsx answered
              (run_reachable AppJsx
                 [EngineCreated capable; Typed "Hello"; Send;
                  StreamChunk 0 (textChunk "Hi"); StreamEnd 0])
              (or_introl eq_refl)) as (M & L & S & _).
  exact (conj M (conj L S)).
Defined.

(** * The capability check *)

(** C5: with an engine that has no [chat.completions.create], a send of
    non-blank text appends one assistant entry saying the chat API is not
    available, makes no request and starts no generation; a second send
    gets to the same check and does the same. *)
Theorem chat_unavailable_reported v s :
  reachable v s ->
  nonBlank (input s) = true ->
  isSome (engine s) = true ->
  hasCreate (engine s) = false ->
  let s' := step v s Send in
  messages s' =
    messages s ++ [mkMessage assistant "Chat API not available in this build."] /\
  requestsOf (handleSend s) = [] /\
  running s' = running s /\
  messages (step v s' Send) =
    messages s' ++ [mkMessage assistant "Chat API not available in this build."] /\
  requestsOf (handleSend s') = [].
Proof.
  intros R Hin He Hcap s'.
  pose proof (reachable_chatless_idle v s R Hcap) as L.
  pose proof (handleSend_unavailable s Hin He L Hcap) as E.
  assert (S' : s' = with_messages (messages s ++ [unavailable]) s).
  { subst s'. simpl. now rewrite E. }
  assert (E' : handleSend s' = [appendMessage unavailable]).
  { rewrite S'. now apply handleSend_unavailable. }
  assert (M' : messages (step v s' Send) = messages s' ++ [unavailable]).
  { simpl. now rewrite E'. }
  rewrite M', E', E, S'. now repeat split.
Qed.

Lemma chat_unavailable_reported_witness :
  let s' := step Restyled helloChatless Send in
  messages s' =
    [systemPrompt; mkMessage assistant "Chat API not available in this build."] /\
  requestsOf (handleSend helloChatless) = [] /\
  running s' = [] /\
  messages (step Restyled s' Send) =
    [systemPrompt;
     mkMessage assistant "Chat API not available in this build.";
     mkMessage assistant "Chat API not available in this build."] /\
  requestsOf (handleSend s') = [].
Proof.
  exact (chat_unavailable_reported Restyled helloChatless
           (run_reachable Restyled [EngineCreated chatless; Typed "Hello"])
           eq_refl eq_refl eq_refl).
Defined.

(** C10: on the path of the missing chat operation the state after the send
    is the state before with the one assistant entry appended: the user
    entries of the transcript are the same, the input keeps its text,
    [loading] is false and no controller or generation is created. *)
Theorem chat_unavailable_frame v s :
  nonBlank (input s) = true ->
  isSome (engine s) = true ->
  loading s = false ->
  hasCreate (engine s) = false ->
  let s' := step v s Send in
  s' = with_messages (messages s ++ [unavailable]) s /\
  filter (fun m => Role_eqb (role m) user) (messages s') =
    filter (fun m => Role_eqb (role m) user) (messages s) /\
  input s' = input s /\
  loading s' = false /\
  abortRef s' = abortRef s /\
  controllers s' = controllers s /\
  running s' = running s.
Proof.
  intros Hin He L Hcap s'. subst s'. simpl.
  rewrite (handleSend_unavailable s Hin He L Hcap). cbn.
  repeat split; try assumption.
  rewrite filter_app. simpl. now rewrite app_nil_r.
Qed.

Lemma chat_unavailable_frame_witness :
  let s' := step Restyled helloChatless Send in
  s' = with_messages [systemPrompt; unavailable] helloChatless /\
  filter (fun m => Role_eqb (role m) user) (messages s') = [] /\
  input s' = "Hello" /\
  loading s' = false /\
  abortRef s' = None /\
  controllers s' = 0 /\
  running s' = [].
Proof.
  exact (chat_unavailable_frame Restyled helloChatless
           eq_refl eq_refl eq_refl eq_refl).
Defined.

(** * The transcript *)

(** C9: in every reachable state the transcript is the system prompt
    followed by entries none of which is a system message, so it holds
    exactly one system message, the first. *)
Theorem transcript_one_leading_system v s :
  reachable v s ->
  leadingSystem (messages s) /\
  List.length (filter (fun m => Role_eqb (role m) system) (messages s)) = 1.
Proof.
  intros R. pose proof (inv_transcript _ (reachable_Inv _ _ R)) as H.
  split; [exact H|]. destruct H as (rest & -> & Hrest). simpl.
  f_equal. induction Hrest as [|m rest Hm _ IH]; [reflexivity|].
  simpl. destruct (Role_eqb (role m) system) eqn:E; [|exact IH].
  now apply Role_eqb_eq in E.
Qed.

Lemma transcript_one_leading_system_witness :
  leadingSystem (messages answered) /\
  List.length (filter (fun m => Role_eqb (role m) system) (messages answered)) = 1.
Proof.
  exact (transcript_one_leading_system AppJsx answered
           (run_reachable AppJsx
              [EngineCreated capable; Typed "Hello"; Send;
               StreamChunk 0 (textChunk "Hi"); StreamEnd 0])).
Defined.

(** * Initialization *)

Lemma progress_step v s r :
  disposed s = false ->
  modelLoaded (step v s (Progress r)) = modelLoaded s || isComplete r /\
  initStatus (step v s (Progress r)) = orElse (text r) (loadingText v) /\
  disposed (step v s (Progress r)) = false.
Proof.
  intros D. simpl. unfold initProgressCallback. rewrite D.
  destruct v, (progress r), (isComplete r); cbn;
    rewrite ?orb_true_r, ?orb_false_r; now repeat split.
Qed.

Lemma reports_snoc v rs r s :
  reports v (rs ++ [r]) s = step v (reports v rs s) (Progress r).
Proof. unfold reports. now rewrite fold_left_app. Qed.

Lemma reports_alive v rs :
  forall s, disposed s = false -> disposed (reports v rs s) = false.
Proof.
  induction rs as [|r rs IH]; intros s D; [exact D|].
  apply IH. now apply progress_step.
Qed.

Lemma reports_ready v rs :
  forall s, disposed s = false ->
    modelLoaded (reports v rs s) = modelLoaded s || existsb isComplete rs.
Proof.
  induction rs as [|r rs IH]; intros s D.
  - simpl. now rewrite orb_false_r.
  - destruct (progress_step v s r D) as (M & _ & D').
    change (reports v (r :: rs) s) with (reports v rs (step v s (Progress r))).
    rewrite (IH _ D'), M. simpl. now rewrite orb_assoc.
Qed.

Lemma readyTrace_changes v rs :
  forall s, disposed s = false ->
    rises (modelLoaded s) (readyTrace v rs s) =
      (if negb (modelLoaded s) && existsb isComplete rs then 1 else 0) /\
    falls (modelLoaded s) (readyTrace v rs s) = 0.
Proof.
  induction rs as [|r rs IH]; intros s D.
  - simpl. now rewrite andb_false_r.
  - destruct (progress_step v s r D) as (M & _ & D').
    destruct (IH _ D') as [IHr IHf].
    cbn [readyTrace rises falls existsb]. rewrite IHr, IHf, M.
    destruct (modelLoaded s), (isComplete r), (existsb isComplete rs); now split.
Qed.

Lemma ready_kept v s ev : implb (modelLoaded s) (modelLoaded (step v s ev)) = true.
Proof.
  destruct (modelLoaded s) eqn:E; [|reflexivity]. simpl implb.
  destruct ev as [report|eng|e| |value| | |c chunk|c|c err]; simpl.
  - unfold initProgressCallback.
    now destruct (disposed s), v, (progress report), (isComplete report).
  - now destruct (pendingInit s), (disposed s).
  - now destruct (pendingInit s).
  - unfold abortCurrent. now destruct (abortRef s).
  - exact E.
  - unfold handleSend, abortCurrent.
    now destruct (negb (truthy (trim (input s))) || negb (isSome (engine s))
                  || loading s), (hasCreate (engine s)), (abortRef s).
  - unfold handleCancel. now destruct (abortRef s).
  - now destruct (findGeneration c (running s)).
  - now destruct (findGeneration c (running s)).
  - unfold onThrow.
    now destruct (findGeneration c (running s)), (name err =? "AbortError")%string.
Qed.

(** C4: along any sequence of progress reports the ready flag is true
    exactly when a report with progress 1 has been seen; so it rises once if
    there is such a report and not at all otherwise, it never falls, and no
    later event of any kind makes it false again.  After each report the
    status text is the text of that report, or the loading text when the
    report has none. *)
Theorem ready_flag_rises_once v rs r s ev :
  modelLoaded (reports v rs (initial v)) = existsb isComplete rs /\
  rises false (readyTrace v rs (initial v)) =
    (if existsb isComplete rs then 1 else 0) /\
  falls false (readyTrace v rs (initial v)) = 0 /\
  implb (modelLoaded s) (modelLoaded (step v s ev)) = true /\
  initStatus (reports v (rs ++ [r]) (initial v)) =
    orElse (text r) (loadingText v).
Proof.
  assert (D : disposed (initial v) = false) by reflexivity.
  split; [exact (reports_ready v rs _ D)|].
  split; [exact (proj1 (readyTrace_changes v rs _ D))|].
  split; [exact (proj2 (readyTrace_changes v rs _ D))|].
  split; [apply ready_kept|].
  rewrite reports_snoc.
  exact (proj1 (proj2 (progress_step v _ r (reports_alive v rs _ D)))).
Qed.

(** The scenario of three reports: the flag is true only after the third. *)
Example ready_after_third_report :
  readyTrace AppJsx threeReports (initial AppJsx) = [false; false; true] /\
  initStatus (reports AppJsx [nth 0 threeReports (mkReport "" None);
                              nth 1 threeReports (mkReport "" None)]
                (initial AppJsx)) = "Loading model from cache".
Proof. split; reflexivity. Qed.

(** * More invariants *)

Lemma NoDup_snoc {A} (l : list A) (x : A) :
  NoDup l -> ~ In x l -> NoDup (l ++ [x]).
Proof.
  induction 1 as [|y l Hy _ IH]; intros Hx; simpl.
  - constructor; [intros []|constructor].
  - constructor.
    + intros H. apply in_app_or in H as [H|[H|[]]]; [now apply Hy|].
      apply Hx. now left.
    + apply IH. intros H. apply Hx. now right.
Qed.

Lemma findGeneration_In c rn :
  findGeneration c rn <> None <-> In c (map controller rn).
Proof.
  unfold findGeneration. induction rn as [|g rn IH]; simpl.
  - split; [congruence|intros []].
  - unfold owns at 1. destruct (Nat.eqb_spec (controller g) c) as [E|E].
    + split; [now left|discriminate].
    + rewrite IH. split; [now right|]. now intros [H|H].
Qed.

Lemma setAccum_controllers c accum rn :
  map controller (setAccum c accum rn) = map controller rn.
Proof.
  unfold setAccum. rewrite map_map. apply map_ext. intros g.
  unfold owns. destruct (Nat.eqb_spec (controller g) c) as [E|E]; [|reflexivity].
  now rewrite <- E.
Qed.

Lemma dropGeneration_controllers c rn :
  map controller (dropGeneration c rn) =
  filter (fun d => negb (Nat.eqb d c)) (map controller rn).
Proof.
  unfold dropGeneration, owns. induction rn as [|g rn IH]; simpl; [reflexivity|].
  destruct (Nat.eqb (controller g) c); simpl; now rewrite IH.
Qed.

Lemma orElse_nonempty s d : d <> "" -> orElse s d <> "".
Proof.
  intros Hd. unfold orElse, truthy.
  destruct (String.eqb_spec s ""); simpl; assumption.
Qed.

Lemma engine_running_capable s :
  Inv s -> running s <> [] -> engine s <> None.
Proof.
  intros I H E. apply (inv_capable _ I) in H. rewrite E in H. discriminate.
Qed.

Lemma Inv2_initial v : Inv2 (initial v).
Proof.
  constructor; simpl.
  - discriminate.
  - constructor.
  - constructor.
  - discriminate.
  - reflexivity.
  - now destruct v.
Qed.

Lemma Inv2_step v s ev : Inv s -> Inv2 s -> Inv2 (step v s ev).
Proof.
  intros I J. pose proof J as [Hr Ha Hd Hs Hu Ht].
  destruct ev as [report|eng|e| |value| | |c chunk|c|c err]; simpl.
  - (* Progress *)
    unfold initProgressCallback.
    destruct (disposed s); [exact J|].
    assert (orElse (text report) (loadingText v) <> "").
    { apply orElse_nonempty. now destruct v. }
    destruct v, (progress report), (isComplete report);
      constructor; cbn; assumption.
  - (* EngineCreated *)
    destruct (pendingInit s); [|exact J].
    destruct (disposed s); constructor; cbn; try assumption; discriminate.
  - (* InitFailed *)
    destruct (pendingInit s); [|exact J].
    constructor; cbn; try assumption; discriminate.
  - (* Teardown *)
    unfold abortCurrent. destruct (abortRef s) as [c0|] eqn:R;
      constructor; cbn; try assumption; try apply J.
    constructor; [now apply (inv_ref _ J)|apply J].
  - (* Typed *)
    constructor; cbn; assumption.
  - (* Send *)
    unfold handleSend.
    destruct (negb (truthy (trim (input s))) || negb (isSome (engine s)) || loading s)
      eqn:G; [exact J|].
    apply orb_false_iff in G as [G _]. apply orb_false_iff in G as [_ G].
    apply negb_false_iff in G.
    assert (En : engine s <> None) by (intros E; rewrite E in G; discriminate).
    assert (Fresh : ~ In (controllers s) (map controller (running s))).
    { intros H. apply in_map_iff in H as (g & E & Hg).
      pose proof (proj1 (Forall_forall _ _) (inv_fresh _ I) g Hg) as L.
      cbn in L. lia. }
    assert (Ha' : Forall (fun c => c < S (controllers s)) (aborted s)).
    { eapply Forall_impl; [|exact Ha]. cbn. intros; lia. }
    assert (FF : find (owns (controllers s))
                   (running s ++ [mkGeneration (controllers s) ""]) <> None).
    { change (findGeneration (controllers s)
                (running s ++ [mkGeneration (controllers s) ""]) <> None).
      rewrite (findGeneration_fresh _ _ _ (inv_fresh _ I)). discriminate. }
    destruct (hasCreate (engine s)) eqn:H; simpl.
    + unfold abortCurrent.
      destruct (abortRef s) as [c0|] eqn:R; constructor; cbn;
        try assumption; try apply J; try (intros E; now apply En in E);
        try (intros c1 E1; injection E1 as <-; lia);
        try (rewrite map_app; now apply NoDup_snoc);
        try (intros _; exists (controllers s); split; [reflexivity|exact FF]).
      constructor; [|exact Ha']. pose proof (inv_ref _ J c0 R). lia.
    + constructor; cbn; try assumption. intros E. now apply En in E.
  - (* Cancel *)
    unfold handleCancel. destruct (abortRef s) as [c0|] eqn:R; [|exact J].
    constructor; cbn; try assumption; try apply J; try discriminate.
    constructor; [now apply (inv_ref _ J)|apply J].
  - (* StreamChunk *)
    destruct (findGeneration c (running s)) as [g|] eqn:F; [|exact J].
    assert (En : engine s <> None).
    { apply engine_running_capable; [exact I|].
      apply findGeneration_nonempty with c. congruence. }
    constructor; cbn; try assumption.
    + now rewrite setAccum_controllers.
    + intros L. destruct (Hs L) as (c0 & R & F0). exists c0. split; [exact R|].
      apply findGeneration_In. rewrite setAccum_controllers.
      now apply findGeneration_In.
    + intros E. now apply En in E.
  - (* StreamEnd *)
    destruct (findGeneration c (running s)) as [g|] eqn:F; [|exact J].
    constructor; cbn; try assumption; try discriminate.
    rewrite dropGeneration_controllers. now apply NoDup_filter.
  - (* StreamThrow *)
    destruct (findGeneration c (running s)) as [g|] eqn:F; [|exact J].
    assert (En : engine s <> None).
    { apply engine_running_capable; [exact I|].
      apply findGeneration_nonempty with c. congruence. }
    unfold onThrow.
    destruct (name err =? "AbortError")%string; constructor; cbn;
      try assumption; try discriminate;
      try (rewrite dropGeneration_controllers; now apply NoDup_filter).
    intros E. now apply En in E.
Qed.

Lemma reachable_Inv2 v s : reachable v s -> Inv2 s.
Proof.
  induction 1 as [|s ev R IH]; [apply Inv2_initial|].
  apply Inv2_step; [now apply reachable_Inv with v|exact IH].
Qed.

(** * The guard of [handleSend] and the controls *)

Lemma trimStart_allWhite s : allWhite s = true -> trimStart s = "".
Proof.
  induction s as [|c r IH]; simpl; [reflexivity|].
  intros H. apply andb_true_iff in H as [Hc Hr]. rewrite Hc. now apply IH.
Qed.

Lemma allWhite_trimStart s : allWhite (trimStart s) = true -> allWhite s = true.
Proof.
  induction s as [|c r IH]; simpl; [reflexivity|].
  destruct (isWhiteSpace c) eqn:Hc; simpl.
  - exact IH.
  - rewrite Hc. discriminate.
Qed.

Lemma trimEnd_empty s : trimEnd s = "" -> allWhite s = true.
Proof.
  induction s as [|c r IH]; simpl; [reflexivity|].
  destruct (trimEnd r); [|discriminate].
  destruct (isWhiteSpace c); [|discriminate].
  intros _. now apply IH.
Qed.

Lemma nonBlank_allWhite value : nonBlank value = negb (allWhite value).
Proof.
  unfold nonBlank, truthy, trim. f_equal.
  destruct (allWhite value) eqn:W.
  - now rewrite (trimStart_allWhite _ W).
  - apply String.eqb_neq. intros E. apply trimEnd_empty in E.
    apply allWhite_trimStart in E. congruence.
Qed.

Lemma handleSend_nil_iff s :
  handleSend s = [] <->
  nonBlank (input s) = false \/ engine s = None \/ loading s = true.
Proof.
  unfold handleSend, nonBlank, abortCurrent.
  destruct (hasCreate (engine s)), (abortRef s),
    (truthy (trim (input s))), (engine s) as [e|], (loading s); simpl;
    try (split; [intros _|reflexivity]; tauto);
    (split; [discriminate|intros [H|[H|H]]; discriminate H]).
Qed.


(** X2: an input of white space only is never sent: the send changes
    nothing, whatever the state. *)
Theorem whitespace_input_ignored v s :
  allWhite (input s) = true ->
  nonBlank (input s) = false /\ handleSend s = [] /\ step v s Send = s.
Proof.
  intros W.
  assert (B : nonBlank (input s) = false) by now rewrite nonBlank_allWhite, W.
  assert (E : handleSend s = []) by (apply handleSend_nil_iff; now left).
  repeat split; try assumption. simpl. now rewrite E.
Qed.

Lemma whitespace_input_ignored_witness :
  input spacesTyped = "   " /\
  handleSend spacesTyped = [] /\
  step AppJsx spacesTyped Send = spacesTyped.
Proof.
  split; [reflexivity|].
  exact (proj2 (whitespace_input_ignored AppJsx spacesTyped eq_refl)).
Defined.

(** X3: in [App.jsx] the Send button is shown and enabled exactly in the
    states in which [handleSend] makes a call. *)
Theorem send_button_matches_handler s :
  button AppJsx s = SendButton false <-> handleSend s <> [].
Proof.
  rewrite handleSend_nil_iff. unfold button, controlsReady, nonBlank.
  destruct (loading s), (engine s), (truthy (trim (input s))); simpl;
    split; intros H;
    try discriminate H;
    try (intros [K|[K|K]]; discriminate K);
    try reflexivity;
    exfalso; apply H; tauto.
Qed.

Lemma progress_frame v s r :
  engine (step v s (Progress r)) = engine s /\
  loading (step v s (Progress r)) = loading s /\
  messages (step v s (Progress r)) = messages s /\
  input (step v s (Progress r)) = input s.
Proof.
  simpl. unfold initProgressCallback.
  now destruct (disposed s), v, (progress r), (isComplete r).
Qed.

Lemma reports_frame v rs :
  forall s,
    engine (reports v rs s) = engine s /\
    loading (reports v rs s) = loading s /\
    messages (reports v rs s) = messages s /\
    input (reports v rs s) = input s.
Proof.
  induction rs as [|r rs IH]; intros s; [now repeat split|].
  change (reports v (r :: rs) s) with (reports v rs (step v s (Progress r))).
  destruct (IH (step v s (Progress r))) as (E & L & M & N).
  destruct (progress_frame v s r) as (E' & L' & M' & N').
  rewrite E, L, M, N. now repeat split.
Qed.

(** X4: in the restyled copy the controls follow the ready flag, not the
    engine: once a report has progress 1 and until [CreateMLCEngine] has
    resolved, the input and the Send button are enabled for non-blank text,
    and the send does nothing. *)
Theorem restyled_send_enabled_before_engine rs value :
  existsb isComplete rs = true ->
  nonBlank value = true ->
  let s := step Restyled (reports Restyled rs (initial Restyled)) (Typed value) in
  inputDisabled Restyled s = false /\
  button Restyled s = SendButton false /\
  handleSend s = [] /\
  step Restyled s Send = s.
Proof.
  intros C B s.
  destruct (reports_frame Restyled rs (initial Restyled)) as (E & L & _ & _).
  assert (R : modelLoaded s = true).
  { change (modelLoaded s) with (modelLoaded (reports Restyled rs (initial Restyled))).
    rewrite reports_ready by reflexivity. now rewrite C. }
  assert (Es : engine s = None) by exact E.
  assert (Ls : loading s = false) by exact L.
  assert (H : handleSend s = []) by (apply handleSend_nil_iff; tauto).
  unfold inputDisabled, button, controlsReady. rewrite R, Ls.
  change (input s) with value. unfold nonBlank in B. rewrite B.
  repeat split; try assumption. simpl step. now rewrite H.
Qed.

Lemma restyled_send_enabled_before_engine_witness :
  let s := step Restyled (reports Restyled threeReports (initial Restyled))
             (Typed "Hello") in
  inputDisabled Restyled s = false /\
  button Restyled s = SendButton false /\
  handleSend s = [] /\
  step Restyled s Send = s.
Proof.
  exact (restyled_send_enabled_before_engine threeReports "Hello" eq_refl eq_refl).
Defined.

(** * What is shown and what is kept *)




Lemma step_messages v s ev :
  messages (step v s ev) = messages s \/
  (exists m,
      (role m = assistant \/ (ev = Send /\ m = mkMessage user (input s))) /\
      messages (step v s ev) = messages s ++ [m]) \/
  (exists accum, messages (step v s ev) = streamUpdate accum (messages s)).
Proof.
  destruct ev as [report|eng|e| |value| | |c chunk|c|c err]; simpl.
  - unfold initProgressCallback.
    left. now destruct (disposed s), v, (progress report), (isComplete report).
  - left. now destruct (pendingInit s), (disposed s).
  - left. now destruct (pendingInit s).
  - left. unfold abortCurrent. now destruct (abortRef s).
  - now left.
  - unfold handleSend, abortCurrent.
    destruct (negb (truthy (trim (input s))) || negb (isSome (engine s)) || loading s);
      [now left|].
    right; left. destruct (hasCreate (engine s)); simpl.
    + exists (mkMessage user (input s)). split; [now right|].
      now destruct (abortRef s).
    + exists unavailable. split; [now left|reflexivity].
  - left. unfold handleCancel. now destruct (abortRef s).
  - destruct (findGeneration c (running s)) as [g|]; [|now left].
    right; right. now exists (accumulate (assistantAccum g) chunk).
  - left. now destruct (findGeneration c (running s)).
  - destruct (findGeneration c (running s)); [|now left].
    unfold onThrow. destruct (name err =? "AbortError")%string; [now left|].
    right; left. exists (errorMessage err). split; [now left|reflexivity].
Qed.

Lemma userEntries_streamUpdate accum prev :
  userEntries (streamUpdate accum prev) = userEntries prev.
Proof.
  unfold userEntries.
  destruct prev as [|p prev]; [reflexivity|].
  destruct (@exists_last _ (p :: prev)) as (pre & m & E); [discriminate|].
  rewrite E, streamUpdate_snoc.
  destruct (Role_eqb (role m) assistant) eqn:Hm.
  - apply Role_eqb_eq in Hm. rewrite !filter_app. simpl. now rewrite Hm.
  - rewrite !filter_app. simpl.
    destruct (Role_eqb (role m) user); reflexivity.
Qed.

(** X6: no event removes or changes a user message: after any event the
    user entries of the transcript are those before it, followed by the
    input when the event is an accepted send. *)
Theorem user_entries_only_grow v s ev :
  exists extra,
    userEntries (messages (step v s ev)) = userEntries (messages s) ++ extra /\
    (extra = [] \/ (ev = Send /\ extra = [mkMessage user (input s)])).
Proof.
  destruct (step_messages v s ev) as [E|[(m & Hm & E)|(accum & E)]]; rewrite E.
  - exists []. split; [now rewrite app_nil_r|now left].
  - unfold userEntries. rewrite filter_app. simpl.
    destruct Hm as [Hm|[-> ->]].
    + rewrite Hm. simpl. exists []. split; [reflexivity|now left].
    + simpl. exists [mkMessage user (input s)]. split; [reflexivity|now right].
  - exists []. rewrite userEntries_streamUpdate, app_nil_r. split; [reflexivity|now left].
Qed.

(** X7: no event touches an entry of the transcript other than a trailing
    assistant entry: the transcript after any event starts with the
    transcript before it, less its last entry when that is an assistant
    one, and it is never shorter. *)
Theorem history_is_kept v s ev :
  (exists tail,
      messages (step v s ev) =
      (if endsWithAssistant (messages s)
       then removelast (messages s) else messages s) ++ tail) /\
  List.length (messages s) <= List.length (messages (step v s ev)).
Proof.
  assert (K : forall ms : list Message,
             exists tail,
               ms = (if endsWithAssistant ms then removelast ms else ms) ++ tail).
  { intros ms. destruct (endsWithAssistant ms) eqn:A.
    - destruct ms as [|p ms]; [discriminate|].
      exists [last (p :: ms) p]. apply app_removelast_last. discriminate.
    - exists []. now rewrite app_nil_r. }
  assert (L : forall ms : list Message,
             endsWithAssistant ms = true ->
             List.length ms = S (List.length (removelast ms))).
  { intros ms A. destruct ms as [|p ms]; [discriminate|].
    rewrite (app_removelast_last p) at 1 by discriminate.
    rewrite length_app. simpl. lia. }
  destruct (step_messages v s ev) as [E|[(m & _ & E)|(accum & E)]]; rewrite E.
  - split; [apply K|lia].
  - split; [|rewrite length_app; simpl; lia].
    destruct (K (messages s)) as (tail & Ht). exists (tail ++ [m]).
    rewrite app_assoc. now rewrite <- Ht.
  - unfold streamUpdate. destruct (endsWithAssistant (messages s)) eqn:A.
    + split; [now eexists|]. rewrite length_app, (L _ A). simpl. lia.
    + split; [now eexists|]. rewrite length_app. simpl. lia.
Qed.

(** X8: the status text is never empty in a reachable state, so the
    overlay, shown as long as the model is not loaded, always has a text. *)
Theorem status_text_never_empty v s :
  reachable v s ->
  initStatus s <> "" /\
  match overlay v s with
  | Some o => overlayText o <> "" /\ modelLoaded s = false
  | None => modelLoaded s = true
  end.
Proof.
  intros R. pose proof (inv_status _ (reachable_Inv2 _ _ R)) as H.
  split; [exact H|]. unfold overlay.
  destruct (modelLoaded s); simpl; [reflexivity|now split].
Qed.

Lemma status_text_never_empty_witness :
  initStatus (run Restyled [Progress (mkReport "" None)]) = "Loading model..." /\
  initStatus (run Restyled [Progress (mkReport "" None)]) <> "".
Proof.
  split; [reflexivity|].
  exact (proj1 (status_text_never_empty Restyled _
                  (run_reachable Restyled [Progress (mkReport "" None)]))).
Defined.

(** * Controllers and generations *)

(** X9: while [loading] is true, [abortRef] holds the controller of a
    generation that is running; [handleCancel] aborts that controller,
    clears the ref and sets [loading] to false, and touches neither the
    transcript nor the generation, whose loop goes on until its stream
    ends or throws. *)
Theorem stop_aborts_running_generation v s :
  reachable v s ->
  loading s = true ->
  exists c,
    abortRef s = Some c /\
    findGeneration c (running s) <> None /\
    In c (aborted (step v s Cancel)) /\
    abortRef (step v s Cancel) = None /\
    loading (step v s Cancel) = false /\
    messages (step v s Cancel) = messages s /\
    running (step v s Cancel) = running s.
Proof.
  intros R L.
  destruct (inv_stop _ (reachable_Inv2 _ _ R) L) as (c & E & F).
  exists c. split; [exact E|]. split; [exact F|].
  simpl. unfold handleCancel. rewrite E. cbn. repeat split. now left.
Qed.

Lemma stop_aborts_running_generation_witness :
  exists c,
    abortRef generating = Some c /\
    findGeneration c (running generating) <> None /\
    In c (aborted (step AppJsx generating Cancel)) /\
    abortRef (step AppJsx generating Cancel) = None /\
    loading (step AppJsx generating Cancel) = false /\
    messages (step AppJsx generating Cancel) = messages generating /\
    running (step AppJsx generating Cancel) = running generating.
Proof.
  exact (stop_aborts_running_generation AppJsx generating
           (run_reachable AppJsx [EngineCreated capable; Typed "Hello"; Send])
           eq_refl).
Defined.

Lemma requestsOf_handleSend s r :
  In r (requestsOf (handleSend s)) ->
  nonBlank (input s) = true /\ hasCreate (engine s) = true /\ loading s = false /\
  Request.signal r = controllers s.
Proof.
  unfold handleSend, nonBlank, abortCurrent.
  destruct (truthy (trim (input s))); simpl; [|intros []].
  destruct (isSome (engine s)); simpl; [|intros []].
  destruct (loading s); simpl; [intros []|].
  destruct (hasCreate (engine s)); simpl; [|intros []].
  destruct (abortRef s); simpl; intros [<-|[]]; now repeat split.
Qed.

(** X10: the signal a request is given is new: its controller was not
    aborted before the request, belongs to no generation already running,
    and is the one [abortRef] holds afterwards; the controllers of the
    running generations stay pairwise distinct. *)
Theorem request_signal_is_fresh v s r :
  reachable v s ->
  In r (requestsOf (handleSend s)) ->
  ~ In (Request.signal r) (aborted (step v s Send)) /\
  ~ In (Request.signal r) (map controller (running s)) /\
  abortRef (step v s Send) = Some (Request.signal r) /\
  NoDup (map controller (running (step v s Send))).
Proof.
  intros R Hr.
  destruct (requestsOf_handleSend s r Hr) as (Hin & Hcap & L & ->).
  pose proof (reachable_Inv _ _ R) as I. pose proof (reachable_Inv2 _ _ R) as J.
  assert (Fresh : ~ In (controllers s) (map controller (running s))).
  { intros H. apply in_map_iff in H as (g & E & Hg).
    pose proof (proj1 (Forall_forall _ _) (inv_fresh _ I) g Hg) as Lt.
    cbn in Lt. lia. }
  assert (Old : ~ In (controllers s) (aborted s)).
  { intros H. pose proof (proj1 (Forall_forall _ _) (inv_aborted _ J) _ H) as Lt.
    cbn in Lt. lia. }
  split; [|split; [exact Fresh|split]].
  - simpl. rewrite (handleSend_accepted s Hin Hcap L). unfold abortCurrent.
    destruct (abortRef s) as [c0|] eqn:E; cbn; [|exact Old].
    intros [H|H]; [|now apply Old].
    pose proof (inv_ref _ J c0 E). lia.
  - simpl. rewrite (handleSend_accepted s Hin Hcap L). unfold abortCurrent.
    now destruct (abortRef s).
  - exact (inv_distinct _ (reachable_Inv2 _ _ (reach_step v s Send R))).
Qed.

Lemma request_signal_is_fresh_witness :
  aborted (step AppJsx answeredTyped Send) = [0] /\
  ~ In 1 (aborted (step AppJsx answeredTyped Send)) /\
  abortRef (step AppJsx answeredTyped Send) = Some 1.
Proof.
  split; [reflexivity|].
  destruct (request_signal_is_fresh AppJsx answeredTyped
              (Request.mk
                 [systemPrompt; mkMessage user "Hello"; mkMessage assistant "Hi";
                  mkMessage user "More"] true (7 # 10) 512 1)
              (run_reachable AppJsx
                 [EngineCreated capable; Typed "Hello"; Send;
                  StreamChunk 0 (textChunk "Hi"); StreamEnd 0; Typed "More"])
              (or_introl eq_refl)) as (A & _ & B & _).
  exact (conj A B).
Defined.

(** X11: the streaming loop does not look at the signal: after
    [handleCancel], a chunk that the cancelled stream still yields replaces
    or adds the trailing assistant entry as before. *)
Theorem cancelled_stream_still_writes v s chunk :
  reachable v s ->
  loading s = true ->
  exists c g,
    abortRef s = Some c /\
    findGeneration c (running s) = Some g /\
    In c (aborted (step v s Cancel)) /\
    messages (step v (step v s Cancel) (StreamChunk c chunk)) =
      streamUpdate (accumulate (assistantAccum g) chunk) (messages s).
Proof.
  intros R L.
  destruct (inv_stop _ (reachable_Inv2 _ _ R) L) as (c & E & F).
  destruct (findGeneration c (running s)) as [g|] eqn:Fg; [|congruence].
  exists c, g. split; [exact E|]. split; [exact Fg|].
  assert (S1 : running (step v s Cancel) = running s /\
               messages (step v s Cancel) = messages s /\
               In c (aborted (step v s Cancel))).
  { simpl. unfold handleCancel. rewrite E. cbn. repeat split. now left. }
  destruct S1 as (Rn & M & A). split; [exact A|].
  assert (Fg' : findGeneration c (running (step v s Cancel)) = Some g)
    by now rewrite Rn.
  rewrite (proj1 (stream_chunk_found v _ c chunk g Fg')). now rewrite M.
Qed.

Lemma cancelled_stream_still_writes_witness :
  messages (step AppJsx (step AppJsx generating Cancel)
              (StreamChunk 0 (textChunk "late"))) =
  [systemPrompt; mkMessage user "Hello"; mkMessage assistant "late"].
Proof.
  destruct (cancelled_stream_still_writes AppJsx generating (textChunk "late")
              (run_reachable AppJsx [EngineCreated capable; Typed "Hello"; Send])
              eq_refl) as (c & g & E & F & _ & M).
  injection E as <-. injection F as <-. exact M.
Defined.

(** * A whole exchange *)

Lemma stream_chunk_frame v s c chunk :
  engine (step v s (StreamChunk c chunk)) = engine s /\
  loading (step v s (StreamChunk c chunk)) = loading s /\
  input (step v s (StreamChunk c chunk)) = input s /\
  (findGeneration c (running s) <> None ->
   findGeneration c (running (step v s (StreamChunk c chunk))) <> None).
Proof.
  simpl. destruct (findGeneration c (running s)) as [g|] eqn:F; cbn.
  - repeat split. intros _.
    change (findGeneration c (setAccum c (accumulate (assistantAccum g) chunk)
                                (running s)) <> None).
    rewrite (findGeneration_setAccum _ _ _ _ F). discriminate.
  - repeat split. intros H. now elim H.
Qed.

Lemma streamChunks_frame v c chunks :
  forall s,
    findGeneration c (running s) <> None ->
    engine (streamChunks v c chunks s) = engine s /\
    loading (streamChunks v c chunks s) = loading s /\
    input (streamChunks v c chunks s) = input s /\
    findGeneration c (running (streamChunks v c chunks s)) <> None.
Proof.
  induction chunks as [|chunk chunks IH]; intros s F; [now repeat split|].
  rewrite streamChunks_cons.
  destruct (stream_chunk_frame v s c chunk) as (E & L & N & F').
  destruct (IH _ (F' F)) as (E1 & L1 & N1 & F1).
  rewrite E1, L1, N1, E, L, N. now repeat split.
Qed.

Lemma findGeneration_dropGeneration c rn :
  findGeneration c (dropGeneration c rn) = None.
Proof.
  unfold findGeneration, dropGeneration.
  induction rn as [|g rn IH]; simpl; [reflexivity|].
  destruct (owns c g) eqn:O; simpl; [exact IH|]. now rewrite O.
Qed.

(** X12: an exchange from end to end.  After an accepted send, any chunks
    of its stream and the end of the stream, [loading] is false, the input
    is empty, the generation is gone and the transcript is the one the
    stream left; the next send of non-blank text is accepted and its request
    carries that whole transcript (less typing placeholders) and then the
    new user message. *)
Theorem next_request_carries_the_exchange v s chunks value :
  reachable v s ->
  nonBlank (input s) = true ->
  hasCreate (engine s) = true ->
  loading s = false ->
  nonBlank value = true ->
  let c := controllers s in
  let s1 := step v (streamChunks v c chunks (step v s Send)) (StreamEnd c) in
  loading s1 = false /\
  input s1 = "" /\
  findGeneration c (running s1) = None /\
  messages s1 = afterStream v s chunks /\
  map Request.messages (requestsOf (handleSend (step v s1 (Typed value)))) =
    [filter keepForRequest (afterStream v s chunks) ++ [mkMessage user value]].
Proof.
  intros R Hin Hcap L Hv c s1.
  set (s0 := step v s Send).
  assert (S0 : engine s0 = engine s /\ input s0 = "" /\
               running s0 = running s ++ [mkGeneration c ""]).
  { subst s0. simpl. rewrite (handleSend_accepted s Hin Hcap L).
    unfold abortCurrent. now destruct (abortRef s). }
  destruct S0 as (E0 & N0 & R0).
  assert (F0 : findGeneration c (running s0) <> None).
  { rewrite R0, (findGeneration_fresh _ _ _ (inv_fresh _ (reachable_Inv _ _ R))).
    discriminate. }
  destruct (streamChunks_frame v c chunks s0 F0) as (E1 & _ & N1 & F1).
  set (t := streamChunks v c chunks s0) in *.
  assert (S1 : loading s1 = false /\ input s1 = input t /\ engine s1 = engine t /\
               messages s1 = messages t /\
               running s1 = dropGeneration c (running t)).
  { subst s1. fold s0. fold t. simpl.
    destruct (findGeneration c (running t)); [now repeat split|congruence]. }
  destruct S1 as (L1' & N1' & E1' & M1 & R1).
  split; [exact L1'|]. split; [now rewrite N1', N1|].
  split; [rewrite R1; apply findGeneration_dropGeneration|].
  split; [exact M1|].
  set (u := step v s1 (Typed value)).
  assert (Hu : nonBlank (input u) = true /\ hasCreate (engine u) = true /\
               loading u = false /\ messages u = messages s1).
  { change (input u) with value. change (engine u) with (engine s1).
    change (loading u) with (loading s1). change (messages u) with (messages s1).
    rewrite E1', E1, E0. now repeat split. }
  destruct Hu as (U1 & U2 & U3 & U4).
  rewrite (handleSend_accepted u U1 U2 U3), U4, M1.
  change (input u) with value. unfold abortCurrent.
  now destruct (abortRef u).
Qed.

Lemma next_request_carries_the_exchange_witness :
  map Request.messages
    (requestsOf
       (handleSend
          (step AppJsx
             (step AppJsx
                (streamChunks AppJsx 0 [textChunk "Hi"; textChunk " there"]
                   (step AppJsx helloTyped Send))
                (StreamEnd 0))
             (Typed "And then?")))) =
  [[systemPrompt; mkMessage user "Hello"; mkMessage assistant "Hi there";
    mkMessage user "And then?"]].
Proof.
  exact (proj2 (proj2 (proj2 (proj2
           (next_request_carries_the_exchange AppJsx helloTyped
              [textChunk "Hi"; textChunk " there"] "And then?"
              (run_reachable AppJsx [EngineCreated capable; Typed "Hello"])
              eq_refl eq_refl eq_refl eq_refl))))).
Defined.

(** * Initialization that fails or is torn down *)

Lemma steps_cons v ev evs s : steps v (ev :: evs) s = steps v evs (step v s ev).
Proof. reflexivity. Qed.

Lemma engineless_step v s ev :
  engine s = None ->
  pendingInit s = false \/ disposed s = true ->
  running s = [] ->
  engine (step v s ev) = None /\
  (pendingInit (step v s ev) = false \/ disposed (step v s ev) = true) /\
  running (step v s ev) = [] /\
  messages (step v s ev) = messages s.
Proof.
  intros E P Rn.
  assert (H : handleSend s = []) by (apply handleSend_nil_iff; tauto).
  destruct ev as [report|eng|e| |value| | |c chunk|c|c err]; simpl;
    rewrite ?Rn, ?H; simpl.
  - unfold initProgressCallback.
    destruct (disposed s) eqn:D, v, (progress report), (isComplete report);
      cbn; rewrite ?D; repeat split; auto.
  - destruct (pendingInit s) eqn:Q, (disposed s) eqn:D; cbn;
      rewrite ?Q, ?D; repeat split; auto.
    destruct P as [P|P]; discriminate P.
  - destruct (pendingInit s) eqn:Q; cbn; rewrite ?Q; repeat split; auto.
  - unfold abortCurrent. destruct (abortRef s); cbn; repeat split; auto.
  - cbn. repeat split; auto.
  - repeat split; auto.
  - unfold handleCancel. destruct (abortRef s); cbn; repeat split; auto.
  - repeat split; auto.
  - repeat split; auto.
  - repeat split; auto.
Qed.

Lemma engineless_steps v evs :
  forall s,
    engine s = None ->
    pendingInit s = false \/ disposed s = true ->
    running s = [] ->
    engine (steps v evs s) = None /\
    running (steps v evs s) = [] /\
    messages (steps v evs s) = messages s.
Proof.
  induction evs as [|ev evs IH]; intros s E P Rn; [now repeat split|].
  rewrite steps_cons.
  destruct (engineless_step v s ev E P Rn) as (E' & P' & Rn' & M').
  destruct (IH _ E' P' Rn') as (E1 & R1 & M1).
  rewrite M1, M'. now repeat split.
Qed.

(** X13: a failed initialization is final.  When [CreateMLCEngine] rejects,
    the status becomes "Initialization failed: " and the error's text, and
    whatever happens afterwards the engine stays null, the transcript stays
    the system prompt alone and every send is ignored. *)
Theorem failed_initialization_is_final v s e evs :
  reachable v s ->
  pendingInit s = true ->
  initStatus (step v s (InitFailed e)) =
    ("Initialization failed: " ++ orElse (message e) (name e))%string /\
  let s' := steps v evs (step v s (InitFailed e)) in
  engine s' = None /\
  messages s' = [systemPrompt] /\
  running s' = [] /\
  handleSend s' = [].
Proof.
  intros R P.
  pose proof (inv_pending _ (reachable_Inv _ _ R) P) as E.
  pose proof (inv_untouched _ (reachable_Inv2 _ _ R) E) as M.
  assert (Rn : running s = []).
  { destruct (running s) eqn:Rn; [reflexivity|].
    exfalso. apply (engine_running_capable s (reachable_Inv _ _ R)); [|exact E].
    rewrite Rn. discriminate. }
  set (s0 := step v s (InitFailed e)).
  assert (S0 : initStatus s0 =
                 ("Initialization failed: " ++ orElse (message e) (name e))%string /\
               engine s0 = None /\ pendingInit s0 = false /\
               running s0 = [] /\ messages s0 = [systemPrompt]).
  { subst s0. simpl. rewrite P. cbn. now repeat split. }
  destruct S0 as (St & E0 & P0 & R0 & M0).
  split; [exact St|]. intros s'.
  destruct (engineless_steps v evs s0 E0 (or_introl P0) R0) as (E1 & R1 & M1).
  subst s'. split; [exact E1|]. split; [now rewrite M1|]. split; [exact R1|].
  apply handleSend_nil_iff. tauto.
Qed.

Lemma failed_initialization_is_final_witness :
  initStatus (step AppJsx (initial AppJsx)
                (InitFailed (mkError "Error" "WebGPU is not supported"))) =
    "Initialization failed: WebGPU is not supported" /\
  messages (steps AppJsx [Typed "Hello"; Send; EngineCreated capable; Send]
              (step AppJsx (initial AppJsx)
                 (InitFailed (mkError "Error" "WebGPU is not supported")))) =
    [systemPrompt].
Proof.
  destruct (failed_initialization_is_final AppJsx (initial AppJsx)
              (mkError "Error" "WebGPU is not supported")
              [Typed "Hello"; Send; EngineCreated capable; Send]
              (reach_initial AppJsx) eq_refl) as (St & _ & M & _).
  exact (conj St M).
Defined.

Lemma disposed_step v s ev :
  disposed s = true ->
  disposed (step v s ev) = true /\
  engine (step v s ev) = engine s /\
  modelLoaded (step v s ev) = modelLoaded s /\
  modelProgress (step v s ev) = modelProgress s.
Proof.
  intros D.
  destruct ev as [report|eng|e| |value| | |c chunk|c|c err]; simpl.
  - unfold initProgressCallback. rewrite D. now repeat split.
  - rewrite D. now destruct (pendingInit s).
  - now destruct (pendingInit s).
  - unfold abortCurrent. now destruct (abortRef s).
  - now repeat split.
  - unfold handleSend, abortCurrent.
    now destruct (negb (truthy (trim (input s))) || negb (isSome (engine s))
                  || loading s), (hasCreate (engine s)), (abortRef s).
  - unfold handleCancel. now destruct (abortRef s).
  - now destruct (findGeneration c (running s)).
  - now destruct (findGeneration c (running s)).
  - unfold onThrow.
    now destruct (findGeneration c (running s)), (name err =? "AbortError")%string.
Qed.

(** X14: teardown freezes the initialization.  After the effect's cleanup
    no event changes the engine, the ready flag or the percentage any more:
    late progress reports are dropped and an engine that arrives late is
    not stored. *)
Theorem teardown_freezes_initialization v s evs :
  let s' := steps v evs (step v s Teardown) in
  disposed s' = true /\
  engine s' = engine s /\
  modelLoaded s' = modelLoaded s /\
  modelProgress s' = modelProgress s.
Proof.
  assert (G : forall evs t, disposed t = true ->
                disposed (steps v evs t) = true /\
                engine (steps v evs t) = engine t /\
                modelLoaded (steps v evs t) = modelLoaded t /\
                modelProgress (steps v evs t) = modelProgress t).
  { clear. intros evs. induction evs as [|ev evs IH]; intros t D; [now repeat split|].
    rewrite steps_cons.
    destruct (disposed_step v t ev D) as (D' & E' & M' & P').
    destruct (IH _ D') as (D1 & E1 & M1 & P1).
    rewrite E1, M1, P1, E', M', P'. now repeat split. }
  intros s'.
  assert (T : disposed (step v s Teardown) = true /\
              engine (step v s Teardown) = engine s /\
              modelLoaded (step v s Teardown) = modelLoaded s /\
              modelProgress (step v s Teardown) = modelProgress s).
  { simpl. unfold abortCurrent. now destruct (abortRef s). }
  destruct T as (D & E & M & P).
  destruct (G evs _ D) as (D1 & E1 & M1 & P1).
  subst s'. rewrite E1, M1, P1. now repeat split.
Qed.

(** * The percentage of the restyled copy *)










(** X17: teardown during a generation aborts the controller of the
    running generation, as [handleCancel] does, but keeps the ref, the
    loading flag and the transcript as they are. *)
Theorem teardown_aborts_running_generation v s :
  reachable v s ->
  loading s = true ->
  exists c,
    abortRef s = Some c /\
    findGeneration c (running s) <> None /\
    In c (aborted (step v s Teardown)) /\
    abortRef (step v s Teardown) = Some c /\
    loading (step v s Teardown) = true /\
    messages (step v s Teardown) = messages s.
Proof.
  intros R L.
  destruct (inv_stop _ (reachable_Inv2 _ _ R) L) as (c & E & F).
  exists c. split; [exact E|]. split; [exact F|].
  simpl. unfold abortCurrent. rewrite E. cbn. rewrite E, L.
  repeat split. now left.
Qed.

Lemma teardown_aborts_running_generation_witness :
  exists c,
    abortRef generating = Some c /\
    findGeneration c (running generating) <> None /\
    In c (aborted (step AppJsx generating Teardown)) /\
    abortRef (step AppJsx generating Teardown) = Some c /\
    loading (step AppJsx generating Teardown) = true /\
    messages (step AppJsx generating Teardown) = messages generating.
Proof.
  exact (teardown_aborts_running_generation AppJsx generating
           (run_reachable AppJsx [EngineCreated capable; Typed "Hello"; Send])
           eq_refl).
Defined.
